(** * Affinization crystals

    A shallow embedding of [sage/combinat/crystals/affinization.py]:
    the parent [AffinizationOfCrystal] and its element class, whose
    elements are pairs [b(m)] of an element [b] of a finite crystal of
    affine type and an integer grade [m].

    The host framework (base crystals, Cartan types, weight lattices) is
    consumed through interfaces, which are type classes and records here. *)

From Stdlib Require Import ZArith List Bool String Ascii Lia.
From Stdlib Require Import Decimal DecimalString DecimalPos DecimalZ.
Import ListNotations.
Open Scope Z_scope.

(** ** Host framework interfaces *)

(** What [B.cardinality()] can return: a number or Sage's [Infinity]. *)
Inductive Cardinality : Type :=
| Finite (n : N)
| Infinity.

Definition Cardinality_eqb (c d : Cardinality) : bool :=
  match c, d with
  | Finite n, Finite k => N.eqb n k
  | Infinity, Infinity => true
  | _, _ => false
  end.

(** The part of a Cartan type the module looks at. *)
Record CartanType : Type := mkCartanType {
  ct_name : string;
  is_affine : bool
}.

(** Elements of the base crystal [B]: the operators return [None] where
    they are undefined, indices are integers ([i == 0] is tested on them),
    and [weight] is iterated as (index, coefficient) pairs. *)
Class CrystalElement (B : Type) : Type := {
  b_e : B -> Z -> option B;
  b_f : B -> Z -> option B;
  b_epsilon : B -> Z -> Z;
  b_phi : B -> Z -> Z;
  b_weight : B -> list (Z * Z);
  b_eqb : B -> B -> bool;
  b_ltb : B -> B -> bool
}.

(** The base crystal as a parent: [cartan_type()], [cardinality()] and
    [module_generators]. *)
Record Crystal (B : Type) : Type := mkCrystal {
  cartan_type : CartanType;
  cardinality : Cardinality;
  base_module_generators : list B
}.
Arguments mkCrystal {B} _ _ _.
Arguments cartan_type {B} _.
Arguments cardinality {B} _.
Arguments base_module_generators {B} _.

(** The weight lattice realization [WLR] returned by
    [cartan_type().root_system().weight_lattice(extended=True)]:
    its zero, [+], [-], the action of integers, the family of fundamental
    weights and the null root. *)
Class WeightLatticeRealization (W : Type) : Type := {
  w_zero : W;
  w_add : W -> W -> W;
  w_opp : W -> W;
  w_smul : Z -> W -> W;
  fundamental_weights : Z -> W;
  null_root : W
}.

Definition w_sub {W} `{WeightLatticeRealization W} (u v : W) : W :=
  w_add u (w_opp v).

(** The laws of a module over the integers, which the host's lattice
    satisfies. *)
Class WeightLatticeLaws (W : Type) `{WeightLatticeRealization W} : Prop := {
  w_add_assoc : forall u v w : W, w_add u (w_add v w) = w_add (w_add u v) w;
  w_add_comm : forall u v : W, w_add u v = w_add v u;
  w_add_0_l : forall u : W, w_add w_zero u = u;
  w_add_opp_r : forall u : W, w_add u (w_opp u) = w_zero;
  w_smul_1 : forall u : W, w_smul 1 u = u;
  w_smul_add_l : forall (a b : Z) (u : W),
      w_smul (a + b) u = w_add (w_smul a u) (w_smul b u)
}.

(** [WLR.sum(...)]: the host's [sum(args, self.zero())], a left fold. *)
Definition WLR_sum {W} `{WeightLatticeRealization W} (l : list W) : W :=
  fold_left w_add l w_zero.

(** The specification's reading of the weight: [wt(b) = Sigma c_i Lambda_i]
    summed term by term, and [Sigma c_i Lambda_i + m delta]. *)
Fixpoint spec_Sigma {W} `{WeightLatticeRealization W} (c : list (Z * Z)) : W :=
  match c with
  | [] => w_zero
  | (i, ci) :: c' => w_add (w_smul ci (fundamental_weights i)) (spec_Sigma c')
  end.

Definition spec_weight {W} `{WeightLatticeRealization W}
  (c : list (Z * Z)) (m : Z) : W :=
  w_add (spec_Sigma c) (w_smul m null_root).

(** Python exceptions raised by the module. *)
Inductive Exception : Type :=
| ValueError (msg : string).

(** ** The module *)

Module AffinizationOfCrystal.
Section Affinization.

Context {B : Type} `{CrystalElement B}.
(** Parents are unique representations: [P] is the identity of a parent
    object and [parent_eqb] is [==] on parents. *)
Context {P : Type} (parent_eqb : P -> P -> bool).
(** The extended weight lattice of the Cartan type, as the host's root
    system provides it. *)
Context {W : Type} {ext_weight_lattice : WeightLatticeRealization W}.

(** An element [b(m)]: [Element.__init__(self, parent, b, m)]. *)
Record Element : Type := mkElement {
  parent : P;
  _b : B;
  _m : Z
}.

(** The parent after [__init__]: [self] is its identity. *)
Record t : Type := mkParent {
  self_id : P;
  _B : Crystal B;
  _cartan_type : CartanType;
  module_generators : list Element
}.

(** [AffinizationOfCrystal.__init__(self, B)] *)
Definition __init__ (self : P) (Bc : Crystal B) : Exception + t :=
  if negb (is_affine (cartan_type Bc)) then
    inl (ValueError "must be an affine crystal")
  else if Cardinality_eqb (cardinality Bc) Infinity then
    inl (ValueError "must be finite crystal")
  else
    let mg_elt := fun b => mkElement self b 0 in
    inr (mkParent self Bc (cartan_type Bc)
           (map mg_elt (base_module_generators Bc))).

(** The values an element can be compared with: elements of
    affinization crystals, or anything else. *)
Inductive Value (O : Type) : Type :=
| VElement (x : Element)
| VOther (o : O).
Arguments VElement {O} _.
Arguments VOther {O} _.

(** [Element.__eq__(self, other)] *)
Definition __eq__ {O : Type} (self : Element) (other : Value O) : bool :=
  match other with
  | VOther _ => false
  | VElement other =>
      parent_eqb (parent self) (parent other)
      && b_eqb (_b self) (_b other) && Z.eqb (_m self) (_m other)
  end.

(** [Element.__ne__(self, other)] *)
Definition __ne__ {O : Type} (self : Element) (other : Value O) : bool :=
  negb (__eq__ self other).

(** [Element.__lt__(self, other)] *)
Definition __lt__ (self other : Element) : bool :=
  Z.ltb (_m self) (_m other)
  || (Z.eqb (_m self) (_m other) && b_ltb (_b self) (_b other)).

(** [Element.e(self, i)] *)
Definition e (self : Element) (i : Z) : option Element :=
  match b_e (_b self) i with
  | None => None
  | Some bp =>
      if Z.eqb i 0 then Some (mkElement (parent self) bp (_m self + 1))
      else Some (mkElement (parent self) bp (_m self))
  end.

(** [Element.f(self, i)] *)
Definition f (self : Element) (i : Z) : option Element :=
  match b_f (_b self) i with
  | None => None
  | Some bp =>
      if Z.eqb i 0 then Some (mkElement (parent self) bp (_m self - 1))
      else Some (mkElement (parent self) bp (_m self))
  end.

(** [Element.epsilon(self, i)] *)
Definition epsilon (self : Element) (i : Z) : Z := b_epsilon (_b self) i.

(** [Element.phi(self, i)] *)
Definition phi (self : Element) (i : Z) : Z := b_phi (_b self) i.

(** [AffinizationOfCrystal.weight_lattice_realization(self)] *)
Definition weight_lattice_realization (self : P)
  : WeightLatticeRealization W :=
  ext_weight_lattice.

(** [Element.weight(self)] *)
Definition weight (self : Element) : W :=
  let WLR := weight_lattice_realization (parent self) in
  let La := @fundamental_weights W WLR in
  @w_add W WLR
    (@WLR_sum W WLR
       (map (fun ic => @w_smul W WLR (snd ic) (La (fst ic)))
            (b_weight (_b self))))
    (@w_smul W WLR (_m self) (@null_root W WLR)).

(** Modelled from the spec: [f_string] belongs to the host's crystals
    category and is not part of this module; composing a sequence of
    lowering operators short-circuits to "no value" as soon as one step
    is undefined. *)
Fixpoint f_string (x : Element) (l : list Z) : option Element :=
  match l with
  | [] => Some x
  | i :: l' =>
      match f x i with
      | None => None
      | Some y => f_string y l'
      end
  end.

End Affinization.

(** *** Display *)

Section Display.

(** What the host prints: [repr(b)] and [latex(b)] of a base element and
    [repr(B)] of the base crystal. *)
Context {B : Type} {P : Type}.
Context (b_repr : B -> string) (b_latex : B -> string).
Context (crystal_repr : Crystal B -> string).

(** How [format] prints an integer: decimal digits, with a leading
    minus sign for negative numbers. *)
Definition format_int (m : Z) : string :=
  NilZero.string_of_int (Z.to_int m).

(** [AffinizationOfCrystal._repr_(self)] *)
Definition parent_repr_ (self : @t B P) : string :=
  "Affinization of " ++ crystal_repr (_B self).

(** [Element._repr_(self)] *)
Definition _repr_ (self : @Element B P) : string :=
  b_repr (_b self) ++ "(" ++ format_int (_m self) ++ ")".


End Display.

(** *** Words of operators *)

(** One application of an operator: [x.e(i)] or [x.f(i)]. *)
Inductive Step : Type :=
| E (i : Z)
| F (i : Z).

Section Words.

Context {B : Type} `{CrystalElement B} {P : Type}.

(** A chain of calls such as [x.e(0).e(1)] or [x.f(2).f(1).f(0)], which
    stops at the first [None]. *)
Definition apply_step (x : @Element B P) (s : Step) : option Element :=
  match s with
  | E i => e x i
  | F i => f x i
  end.

Fixpoint apply_word (x : @Element B P) (w : list Step) : option Element :=
  match w with
  | [] => Some x
  | s :: w' =>
      match apply_step x s with
      | None => None
      | Some y => apply_word y w'
      end
  end.

(** The same chain of calls on an element of the base crystal. *)
Definition base_step (b : B) (s : Step) : option B :=
  match s with
  | E i => b_e b i
  | F i => b_f b i
  end.

Fixpoint base_word (b : B) (w : list Step) : option B :=
  match w with
  | [] => Some b
  | s :: w' =>
      match base_step b s with
      | None => None
      | Some b' => base_word b' w'
      end
  end.

(** The number of [e(0)] steps minus the number of [f(0)] steps. *)
Definition step_degree (s : Step) : Z :=
  match s with
  | E i => if Z.eqb i 0 then 1 else 0
  | F i => if Z.eqb i 0 then -1 else 0
  end.

Fixpoint degree (w : list Step) : Z :=
  match w with
  | [] => 0
  | s :: w' => step_degree s + degree w'
  end.

End Words.
End AffinizationOfCrystal.

Arguments AffinizationOfCrystal.VElement {B P O} _.
Arguments AffinizationOfCrystal.VOther {B P O} _.

(** ** A concrete base crystal: the Kirillov-Reshetikhin crystal
    [B^{2,2}] of type [['A',2,1]] used in the module's examples *)

Module KR22.

(** The six tableaux [[[a, b], [c, d]]], named by their rows. *)
Inductive Tableau : Type :=
| T11_22 | T11_23 | T12_23 | T11_33 | T12_33 | T22_33.

(** Elements are compared through their reading words. *)
Definition rank (t : Tableau) : Z :=
  match t with
  | T11_22 => 0 | T11_23 => 1 | T12_23 => 2
  | T11_33 => 3 | T12_33 => 4 | T22_33 => 5
  end.

Definition kr_f (t : Tableau) (i : Z) : option Tableau :=
  match i, t with
  | 0, T22_33 => Some T12_23
  | 0, T12_23 => Some T11_22
  | 0, T12_33 => Some T11_23
  | 1, T11_23 => Some T12_23
  | 1, T11_33 => Some T12_33
  | 1, T12_33 => Some T22_33
  | 2, T11_22 => Some T11_23
  | 2, T11_23 => Some T11_33
  | 2, T12_23 => Some T12_33
  | _, _ => None
  end.

Definition kr_e (t : Tableau) (i : Z) : option Tableau :=
  match i, t with
  | 0, T12_23 => Some T22_33
  | 0, T11_22 => Some T12_23
  | 0, T11_23 => Some T12_33
  | 1, T12_23 => Some T11_23
  | 1, T12_33 => Some T11_33
  | 1, T22_33 => Some T12_33
  | 2, T11_23 => Some T11_22
  | 2, T11_33 => Some T11_23
  | 2, T12_33 => Some T12_23
  | _, _ => None
  end.

(** [epsilon_i] and [phi_i]: the lengths of the [i]-strings. *)
Fixpoint string_length (op : Tableau -> Z -> option Tableau)
         (fuel : nat) (t : Tableau) (i : Z) : Z :=
  match fuel with
  | O => 0
  | S fuel' =>
      match op t i with
      | None => 0
      | Some t' => 1 + string_length op fuel' t' i
      end
  end.

Definition kr_epsilon (t : Tableau) (i : Z) : Z := string_length kr_e 6 t i.
Definition kr_phi (t : Tableau) (i : Z) : Z := string_length kr_f 6 t i.

(** The level-zero weight [Phi - Epsilon], as its nonzero
    (index, coefficient) pairs. *)
Definition kr_weight (t : Tableau) : list (Z * Z) :=
  filter (fun ic => negb (Z.eqb (snd ic) 0))
         (map (fun i => (i, kr_phi t i - kr_epsilon t i)) [0; 1; 2]).

#[global] Instance kr_element : CrystalElement Tableau := {
  b_e := kr_e;
  b_f := kr_f;
  b_epsilon := kr_epsilon;
  b_phi := kr_phi;
  b_weight := kr_weight;
  b_eqb := fun s t => Z.eqb (rank s) (rank t);
  b_ltb := fun s t => Z.ltb (rank s) (rank t)
}.

Definition A21 : CartanType := mkCartanType "['A', 2, 1]" true.

Definition K : Crystal Tableau := mkCrystal A21 (Finite 6) [T11_22].

(** The extended weight lattice of type [['A',2,1]]: coordinates on
    [Lambda[0]], [Lambda[1]], [Lambda[2]] and [delta]. *)
Record ExtWeight : Type := mkExtWeight {
  cLambda0 : Z; cLambda1 : Z; cLambda2 : Z; cdelta : Z
}.

Definition Lambda (i : Z) : ExtWeight :=
  match i with
  | 0 => mkExtWeight 1 0 0 0
  | 1 => mkExtWeight 0 1 0 0
  | 2 => mkExtWeight 0 0 1 0
  | _ => mkExtWeight 0 0 0 0
  end.

Definition delta : ExtWeight := mkExtWeight 0 0 0 1.

#[global] Instance ext_lattice : WeightLatticeRealization ExtWeight := {
  w_zero := mkExtWeight 0 0 0 0;
  w_add := fun u v =>
    mkExtWeight (cLambda0 u + cLambda0 v) (cLambda1 u + cLambda1 v)
                (cLambda2 u + cLambda2 v) (cdelta u + cdelta v);
  w_opp := fun u =>
    mkExtWeight (- cLambda0 u) (- cLambda1 u) (- cLambda2 u) (- cdelta u);
  w_smul := fun a u =>
    mkExtWeight (a * cLambda0 u) (a * cLambda1 u)
                (a * cLambda2 u) (a * cdelta u);
  fundamental_weights := Lambda;
  null_root := delta
}.

(** Parents are named by strings. *)
Definition A_id : string :=
  "Affinization of KR crystal of type ['A', 2, 1] with (r,s)=(2,2)".

Definition Elt : Type := @AffinizationOfCrystal.Element Tableau string.

Definition elt (t : Tableau) (m : Z) : Elt :=
  AffinizationOfCrystal.mkElement A_id t m.

(** [A.module_generators[0]] *)
Definition mg : Elt := elt T11_22 0.

(** The subcrystal of depth two around [mg], in the order in which the
    module's example prints [sorted(S)]. *)
Definition S_sorted : list Elt :=
  [elt T11_22 0; elt T11_23 0; elt T12_23 0; elt T11_33 0;
   elt T11_23 1; elt T12_23 1; elt T12_33 1; elt T22_33 2].

(** Every element of a list is below all the later ones. *)
Fixpoint ascending {A : Type} (lt : A -> A -> bool) (l : list A) : bool :=
  match l with
  | [] => true
  | a :: l' => forallb (lt a) l' && ascending lt l'
  end.

(** The same crystal graph with every weight forgotten: a base crystal
    whose operators leave the weight components unchanged. *)
Definition unweighted : CrystalElement Tableau := {|
  b_e := kr_e;
  b_f := kr_f;
  b_epsilon := kr_epsilon;
  b_phi := kr_phi;
  b_weight := fun _ => [];
  b_eqb := fun s t => Z.eqb (rank s) (rank t);
  b_ltb := fun s t => Z.ltb (rank s) (rank t)
|}.

(** How the tableaux print. *)
Definition tableau_repr (t : Tableau) : string :=
  match t with
  | T11_22 => "[[1, 1], [2, 2]]"
  | T11_23 => "[[1, 1], [2, 3]]"
  | T12_23 => "[[1, 2], [2, 3]]"
  | T11_33 => "[[1, 1], [3, 3]]"
  | T12_33 => "[[1, 2], [3, 3]]"
  | T22_33 => "[[2, 2], [3, 3]]"
  end.

(** The simple roots [alpha[i]] of the extended weight lattice, and their
    parts without [delta]. *)
Definition alpha_classical (i : Z) : ExtWeight :=
  match i with
  | 0 => mkExtWeight 2 (-1) (-1) 0
  | 1 => mkExtWeight (-1) 2 (-1) 0
  | 2 => mkExtWeight (-1) (-1) 2 0
  | _ => mkExtWeight 0 0 0 0
  end.

(** A second parent, to compare elements across parents. *)
Definition A_other : string := "Affinization of another crystal".

(** A crystal the constructor must turn down: not of affine type. *)
Definition A2 : CartanType := mkCartanType "['A', 2]" false.
Definition K_classical : Crystal Tableau := mkCrystal A2 (Finite 6) [T11_22].

(** A crystal the constructor must turn down: of affine type, infinite. *)
Definition K_infinite : Crystal Tableau := mkCrystal A21 Infinity [T11_22].

End KR22.

(** ** Properties *)

Import AffinizationOfCrystal.

(** *** The weight lattice as a module *)

Section LatticeFacts.

Context {W : Type} `{WeightLatticeLaws W}.

Lemma w_add_0_r (u : W) : w_add u w_zero = u.
Proof. rewrite w_add_comm. apply w_add_0_l. Qed.

Lemma w_add_opp_l (u : W) : w_add (w_opp u) u = w_zero.
Proof. rewrite w_add_comm. apply w_add_opp_r. Qed.

Lemma w_opp_unique (u v : W) : w_add u v = w_zero -> v = w_opp u.
Proof.
  intros Huv.
  rewrite <- (w_add_0_l v), <- (w_add_opp_l u), <- w_add_assoc, Huv.
  apply w_add_0_r.
Qed.

Lemma w_opp_add (u v : W) : w_opp (w_add u v) = w_add (w_opp u) (w_opp v).
Proof.
  symmetry. apply w_opp_unique.
  rewrite (w_add_comm (w_opp u)), w_add_assoc, <- (w_add_assoc u).
  rewrite w_add_opp_r, w_add_0_r. apply w_add_opp_r.
Qed.

Lemma w_sub_diag (u : W) : w_sub u u = w_zero.
Proof. apply w_add_opp_r. Qed.

Lemma w_sub_cancel_r (u v w : W) : w_sub (w_add u w) (w_add v w) = w_sub u v.
Proof.
  unfold w_sub. rewrite w_opp_add, (w_add_comm (w_opp v)), w_add_assoc.
  rewrite <- (w_add_assoc u), w_add_opp_r, w_add_0_r. reflexivity.
Qed.

Lemma w_smul_succ (m : Z) (u : W) : w_smul (m + 1) u = w_add (w_smul m u) u.
Proof. rewrite w_smul_add_l, w_smul_1. reflexivity. Qed.

(** The left fold of [WLR.sum] from any starting point. *)
Lemma fold_left_w_add (l : list W) (a : W) :
  fold_left w_add l a = w_add a (fold_right w_add w_zero l).
Proof.
  revert a. induction l as [|u l IH]; intros a; simpl.
  - symmetry. apply w_add_0_r.
  - rewrite IH, w_add_assoc. reflexivity.
Qed.

Lemma WLR_sum_terms (c : list (Z * Z)) :
  WLR_sum (map (fun ic => w_smul (snd ic) (fundamental_weights (fst ic))) c)
  = spec_Sigma c.
Proof.
  unfold WLR_sum. rewrite fold_left_w_add, w_add_0_l.
  induction c as [|[i ci] c IH]; simpl; [reflexivity|].
  rewrite IH. reflexivity.
Qed.

(** The step behind weight additivity: one more [delta] on one side. *)
Lemma w_sub_grade_step (a a' d : W) (m : Z) :
  w_sub (w_add a' (w_smul (m + 1) d)) (w_add a (w_smul m d))
  = w_add d (w_sub a' a).
Proof.
  rewrite w_smul_succ, (w_add_comm (w_smul m d) d), w_add_assoc.
  rewrite w_sub_cancel_r. unfold w_sub.
  rewrite (w_add_comm a' d), w_add_assoc. reflexivity.
Qed.

End LatticeFacts.

(** *** The operators of the affinization *)

Section ElementFacts.

Context {B : Type} `{CrystalElement B}.
Context {P : Type} (parent_eqb : P -> P -> bool).

Implicit Types (x y : @Element B P) (i : Z).

(** Case analysis on what the base operator returns. *)
Ltac base_cases op x i :=
  destruct (op (_b x) i) as [?bp|] eqn:?Hbase.

Lemma e_Some x i bp :
  b_e (_b x) i = Some bp ->
  e x i = Some (mkElement (parent x) bp (if Z.eqb i 0 then _m x + 1 else _m x)).
Proof. unfold e. intros ->. destruct (Z.eqb i 0); reflexivity. Qed.

Lemma f_Some x i bp :
  b_f (_b x) i = Some bp ->
  f x i = Some (mkElement (parent x) bp (if Z.eqb i 0 then _m x - 1 else _m x)).
Proof. unfold f. intros ->. destruct (Z.eqb i 0); reflexivity. Qed.

Lemma e_None x i : b_e (_b x) i = None -> e x i = None.
Proof. unfold e. intros ->. reflexivity. Qed.

Lemma f_None x i : b_f (_b x) i = None -> f x i = None.
Proof. unfold f. intros ->. reflexivity. Qed.

Lemma e_inv x i y :
  e x i = Some y ->
  b_e (_b x) i = Some (_b y) /\ parent y = parent x /\
  _m y = if Z.eqb i 0 then _m x + 1 else _m x.
Proof.
  unfold e. base_cases (@b_e B _) x i; [|discriminate].
  destruct (Z.eqb i 0); intros [= <-]; simpl; auto.
Qed.

Lemma f_inv x i y :
  f x i = Some y ->
  b_f (_b x) i = Some (_b y) /\ parent y = parent x /\
  _m y = if Z.eqb i 0 then _m x - 1 else _m x.
Proof.
  unfold f. base_cases (@b_f B _) x i; [|discriminate].
  destruct (Z.eqb i 0); intros [= <-]; simpl; auto.
Qed.

(** C1: [x.e(i)] is defined exactly when [e_i] is defined on the base
    element [b]; the result is [(e_0(b), m+1)] for [i = 0] and
    [(e_i(b), m)] for [i <> 0], in the parent of [x]; and where [e_i(b)]
    is undefined the result is [None]. *)
Theorem e_spec x i :
  (e x i <> None <-> b_e (_b x) i <> None) /\
  (forall bp, i = 0 -> b_e (_b x) i = Some bp ->
     e x i = Some (mkElement (parent x) bp (_m x + 1))) /\
  (forall bp, i <> 0 -> b_e (_b x) i = Some bp ->
     e x i = Some (mkElement (parent x) bp (_m x))) /\
  (b_e (_b x) i = None -> e x i = None).
Proof.
  repeat split.
  - intros Hdef Hb. apply Hdef, e_None, Hb.
  - intros Hdef Hx. base_cases (@b_e B _) x i; [|congruence].
    rewrite (e_Some _ _ _ Hbase) in Hx. discriminate.
  - intros bp -> Hb. rewrite (e_Some _ _ _ Hb). reflexivity.
  - intros bp Hi Hb. rewrite (e_Some _ _ _ Hb).
    apply Z.eqb_neq in Hi. rewrite Hi. reflexivity.
  - apply e_None.
Qed.

(** C2: [x.f(i)] is defined exactly when [f_i] is defined on the base
    element [b]; the result is [(f_0(b), m-1)] for [i = 0] and
    [(f_i(b), m)] for [i <> 0], in the parent of [x]; and where [f_i(b)]
    is undefined the result is [None]. *)
Theorem f_spec x i :
  (f x i <> None <-> b_f (_b x) i <> None) /\
  (forall bp, i = 0 -> b_f (_b x) i = Some bp ->
     f x i = Some (mkElement (parent x) bp (_m x - 1))) /\
  (forall bp, i <> 0 -> b_f (_b x) i = Some bp ->
     f x i = Some (mkElement (parent x) bp (_m x))) /\
  (b_f (_b x) i = None -> f x i = None).
Proof.
  repeat split.
  - intros Hdef Hb. apply Hdef, f_None, Hb.
  - intros Hdef Hx. base_cases (@b_f B _) x i; [|congruence].
    rewrite (f_Some _ _ _ Hbase) in Hx. discriminate.
  - intros bp -> Hb. rewrite (f_Some _ _ _ Hb). reflexivity.
  - intros bp Hi Hb. rewrite (f_Some _ _ _ Hb).
    apply Z.eqb_neq in Hi. rewrite Hi. reflexivity.
  - apply f_None.
Qed.

(** C9: [epsilon(i)] and [phi(i)] of [b(m)] are those of [b], whatever
    the grade [m] is. *)
Theorem epsilon_phi_spec (p : P) (b : B) (m : Z) i :
  epsilon (mkElement p b m) i = b_epsilon b i /\
  phi (mkElement p b m) i = b_phi b i /\
  (forall (p' : P) (m' : Z),
      epsilon (mkElement p b m) i = epsilon (mkElement p' b m') i /\
      phi (mkElement p b m) i = phi (mkElement p' b m') i).
Proof. repeat split. Qed.

(** C4: [x < y] holds exactly when the grade of [x] is smaller, or the
    grades are equal and the base elements compare by the base crystal's
    own [<]. *)
Theorem lt_spec x y :
  __lt__ x y = true <->
  (_m x < _m y \/ (_m x = _m y /\ b_ltb (_b x) (_b y) = true)).
Proof.
  unfold __lt__.
  rewrite orb_true_iff, andb_true_iff, Z.ltb_lt, Z.eqb_eq. reflexivity.
Qed.

(** The grade decides alone whenever the grades differ. *)
Lemma lt_grade_first x y :
  _m x <> _m y -> __lt__ x y = Z.ltb (_m x) (_m y).
Proof.
  intros Hm. unfold __lt__. apply Z.eqb_neq in Hm. rewrite Hm.
  simpl. apply orb_false_r.
Qed.

(** C10: [==] never fails: against a value that is not an element of an
    affinization crystal it is [False]; on two elements it holds exactly
    when the parents are equal, the base elements are equal and the grades
    are equal; and [!=] is its negation in every case. *)
Theorem eq_ne_spec {O : Type} x :
  (forall o : O, __eq__ parent_eqb x (VOther o) = false) /\
  (forall y, __eq__ parent_eqb x (@VElement B P O y) = true <->
     parent_eqb (parent x) (parent y) = true /\
     b_eqb (_b x) (_b y) = true /\ _m x = _m y) /\
  (forall v : Value O,
     __ne__ parent_eqb x v = negb (__eq__ parent_eqb x v)) /\
  (forall v : Value O,
     __ne__ parent_eqb x v = true <-> __eq__ parent_eqb x v = false).
Proof.
  split; [reflexivity|].
  split; [intros y; simpl; rewrite !andb_true_iff, Z.eqb_eq; tauto|].
  split; intros v; unfold __ne__; [reflexivity|apply negb_true_iff].
Qed.

(** [==] is reflexive as soon as the host's equalities are. *)
Lemma eq_refl_elt {O : Type} x :
  parent_eqb (parent x) (parent x) = true ->
  b_eqb (_b x) (_b x) = true ->
  __eq__ parent_eqb x (@VElement B P O x) = true.
Proof. intros Hp Hb. simpl. rewrite Hp, Hb, Z.eqb_refl. reflexivity. Qed.

(** Lowering undoes raising, up to the base crystal's [==]. *)
Lemma f_after_e {O : Type} x i y :
  (forall p : P, parent_eqb p p = true) ->
  (forall (b b' : B) j, b_e b j = Some b' ->
     exists b'', b_f b' j = Some b'' /\ b_eqb b'' b = true) ->
  e x i = Some y ->
  exists z, f y i = Some z /\ __eq__ parent_eqb z (@VElement B P O x) = true.
Proof.
  intros Hrefl Hinv Hy.
  destruct (e_inv _ _ _ Hy) as (Hb & Hp & Hm).
  destruct (Hinv _ _ _ Hb) as (b'' & Hf & Heq).
  rewrite (f_Some _ _ _ Hf). eexists. split; [reflexivity|].
  simpl. rewrite Hp, Hrefl, Heq, Hm. simpl.
  destruct (Z.eqb i 0); apply Z.eqb_eq; lia.
Qed.

(** Raising undoes lowering, up to the base crystal's [==]. *)
Lemma e_after_f {O : Type} x i y :
  (forall p : P, parent_eqb p p = true) ->
  (forall (b b' : B) j, b_f b j = Some b' ->
     exists b'', b_e b' j = Some b'' /\ b_eqb b'' b = true) ->
  f x i = Some y ->
  exists z, e y i = Some z /\ __eq__ parent_eqb z (@VElement B P O x) = true.
Proof.
  intros Hrefl Hinv Hy.
  destruct (f_inv _ _ _ Hy) as (Hb & Hp & Hm).
  destruct (Hinv _ _ _ Hb) as (b'' & Hf & Heq).
  rewrite (e_Some _ _ _ Hf). eexists. split; [reflexivity|].
  simpl. rewrite Hp, Hrefl, Heq, Hm. simpl.
  destruct (Z.eqb i 0); apply Z.eqb_eq; lia.
Qed.

(** C6: when the base crystal's [e_i] and [f_i] undo each other where
    defined, so do those of the affinization: if [x.e(i)] is defined then
    [x.e(i).f(i) == x], and if [x.f(i)] is defined then
    [x.f(i).e(i) == x]. *)
Theorem inverse_law {O : Type}
  (Hparent : forall p : P, parent_eqb p p = true)
  (Hef : forall (b b' : B) j, b_e b j = Some b' ->
     exists b'', b_f b' j = Some b'' /\ b_eqb b'' b = true)
  (Hfe : forall (b b' : B) j, b_f b j = Some b' ->
     exists b'', b_e b' j = Some b'' /\ b_eqb b'' b = true)
  x i :
  (forall y, e x i = Some y ->
     exists z, f y i = Some z /\
               __eq__ parent_eqb z (@VElement B P O x) = true) /\
  (forall y, f x i = Some y ->
     exists z, e y i = Some z /\
               __eq__ parent_eqb z (@VElement B P O x) = true).
Proof.
  split; intros y Hy.
  - exact (f_after_e x i y Hparent Hef Hy).
  - exact (e_after_f x i y Hparent Hfe Hy).
Qed.

(** With operators that undo each other on the nose, so do the
    affinization's: the grade goes up and down by the same amount. *)
Lemma inverse_law_strict x i y :
  (forall (b b' : B) j, b_e b j = Some b' -> b_f b' j = Some b) ->
  e x i = Some y -> f y i = Some x.
Proof.
  intros Hinv Hy. destruct (e_inv _ _ _ Hy) as (Hb & Hp & Hm).
  rewrite (f_Some _ _ _ (Hinv _ _ _ Hb)), Hp, Hm.
  destruct x as [p b m]; simpl. f_equal. f_equal.
  destruct (Z.eqb i 0); lia.
Qed.

(** The grade moves strictly under the index [0] and not otherwise. *)
Lemma grade_e x i y :
  e x i = Some y -> _m y - _m x = if Z.eqb i 0 then 1 else 0.
Proof.
  intros Hy. destruct (e_inv _ _ _ Hy) as (_ & _ & ->).
  destruct (Z.eqb i 0); lia.
Qed.

Lemma grade_f x i y :
  f x i = Some y -> _m y - _m x = if Z.eqb i 0 then -1 else 0.
Proof.
  intros Hy. destruct (f_inv _ _ _ Hy) as (_ & _ & ->).
  destruct (Z.eqb i 0); lia.
Qed.

End ElementFacts.

(** *** Construction of the parent *)

Section ParentFacts.

Context {B : Type} {P : Type}.

Implicit Types (self : P) (Bc : Crystal B).

Lemma Cardinality_eqb_Infinity (c : Cardinality) :
  Cardinality_eqb c Infinity = true <-> c = Infinity.
Proof. destruct c; simpl; split; congruence. Qed.

Lemma init_affine_finite self Bc :
  is_affine (cartan_type Bc) = true ->
  cardinality Bc <> Infinity ->
  __init__ self Bc =
    inr (mkParent self Bc (cartan_type Bc)
           (map (fun b => mkElement self b 0) (base_module_generators Bc))).
Proof.
  intros Haff Hfin. unfold __init__. rewrite Haff. simpl.
  destruct (Cardinality_eqb (cardinality Bc) Infinity) eqn:Hc; [|reflexivity].
  apply Cardinality_eqb_Infinity in Hc. contradiction.
Qed.

(** C5: the constructor raises an error, and builds nothing, exactly when
    the Cartan type of [B] is not affine or the cardinality of [B] is
    infinite; for [B] of affine type and finite it returns the parent. *)
Theorem init_spec self Bc :
  ((exists err, __init__ self Bc = inl err) <->
   (is_affine (cartan_type Bc) = false \/ cardinality Bc = Infinity)) /\
  ((exists A, __init__ self Bc = inr A) <->
   (is_affine (cartan_type Bc) = true /\
    exists n, cardinality Bc = Finite n)).
Proof.
  destruct (is_affine (cartan_type Bc)) eqn:Haff.
  - destruct (cardinality Bc) as [n|] eqn:Hcard.
    + assert (Hfin : cardinality Bc <> Infinity) by congruence.
      rewrite (init_affine_finite self Bc Haff Hfin). split; split.
      * intros [err [=]].
      * intros [[=]|[=]].
      * eauto.
      * eauto.
    + unfold __init__. rewrite Haff, Hcard. simpl. split; split.
      * auto.
      * eauto.
      * intros [A [=]].
      * intros [_ [n [=]]].
  - unfold __init__. rewrite Haff. simpl. split; split.
    + auto.
    + eauto.
    + intros [A [=]].
    + intros [[=] _].
Qed.

(** Which error is raised: the affine test comes first. *)
Lemma init_errors self Bc :
  (is_affine (cartan_type Bc) = false ->
   __init__ self Bc = inl (ValueError "must be an affine crystal")) /\
  (is_affine (cartan_type Bc) = true -> cardinality Bc = Infinity ->
   __init__ self Bc = inl (ValueError "must be finite crystal")).
Proof.
  unfold __init__. split.
  - intros ->. reflexivity.
  - intros -> ->. reflexivity.
Qed.

(** C8: the generators of the affinization are the elements [(g, 0)] for
    the generators [g] of [B], one for each and in the same order, all of
    grade [0]. *)
Theorem module_generators_spec self Bc (A : @AffinizationOfCrystal.t B P)
  (Hinit : __init__ self Bc = inr A) :
  module_generators A
  = map (fun g => mkElement self g 0) (base_module_generators Bc) /\
  map _b (module_generators A) = base_module_generators Bc /\
  Forall (fun x => _m x = 0 /\ parent x = self) (module_generators A) /\
  (forall k : nat,
     nth_error (module_generators A) k
     = option_map (fun g => mkElement self g 0)
         (nth_error (base_module_generators Bc) k)).
Proof.
  unfold __init__ in Hinit.
  destruct (negb (is_affine (cartan_type Bc))); [discriminate|].
  destruct (Cardinality_eqb (cardinality Bc) Infinity); [discriminate|].
  injection Hinit as <-. simpl.
  split; [reflexivity|]. split; [|split].
  - rewrite map_map. simpl. apply map_id.
  - apply Forall_map, Forall_forall. intros g _. simpl. auto.
  - intros k. apply nth_error_map.
Qed.

End ParentFacts.

(** *** Weights *)

Section WeightFacts.

Context {B : Type} `{CrystalElement B} {P : Type}.
Context {W : Type} `{WeightLatticeLaws W}.

Implicit Types (x y : @Element B P) (i : Z).

(** The folded sum of the code is the term-by-term sum. *)
Lemma weight_Sigma x :
  weight x
  = w_add (spec_Sigma (b_weight (_b x))) (w_smul (_m x) null_root).
Proof.
  unfold weight, weight_lattice_realization. cbv zeta.
  rewrite WLR_sum_terms. reflexivity.
Qed.

(** C3: the weight of [b(m)] is [Sigma c_i Lambda_i + m delta], where the
    [c_i] are the coefficients of [wt(b)], the [Lambda_i] the fundamental
    weights of the extended weight lattice and [delta] its null root. *)
Theorem weight_spec x :
  weight x = spec_weight (b_weight (_b x)) (_m x) /\
  spec_weight (b_weight (_b x)) (_m x)
  = w_add (spec_Sigma (b_weight (_b x))) (w_smul (_m x) null_root).
Proof.
  unfold spec_weight, weight, weight_lattice_realization. cbv zeta.
  split; [|reflexivity].
  f_equal. unfold WLR_sum.
  rewrite fold_left_w_add, w_add_0_l.
  induction (b_weight (_b x)) as [|[j cj] c IH]; simpl.
  - reflexivity.
  - rewrite IH. reflexivity.
Qed.

(** The weights of two elements over the same base weight differ by the
    difference of their grades. *)
Lemma weight_same_base x y :
  spec_Sigma (b_weight (_b y)) = spec_Sigma (b_weight (_b x)) ->
  _m y = _m x ->
  weight y = weight x.
Proof. intros HS Hm. rewrite !weight_Sigma, HS, Hm. reflexivity. Qed.

Lemma weight_e0_diff x y :
  e x 0 = Some y ->
  w_sub (weight y) (weight x)
  = w_add null_root
      (w_sub (spec_Sigma (b_weight (_b y))) (spec_Sigma (b_weight (_b x)))).
Proof.
  intros Hy. destruct (e_inv _ _ _ Hy) as (_ & _ & Hm). simpl in Hm.
  rewrite !weight_Sigma, Hm. apply w_sub_grade_step.
Qed.

(** C7, as the code has it: raising by [e_0] adds [delta] and the change
    of the base weight, so the difference is [delta] when [e_0] leaves the
    weight components of the base element unchanged; and for [i <> 0],
    raising or lowering by [i] leaves the weight unchanged when the base
    operator leaves the weight components unchanged. *)
Theorem weight_additivity x :
  (forall y, e x 0 = Some y ->
     w_sub (weight y) (weight x)
     = w_add null_root
         (w_sub (spec_Sigma (b_weight (_b y)))
                (spec_Sigma (b_weight (_b x))))) /\
  (forall y, e x 0 = Some y ->
     spec_Sigma (b_weight (_b y)) = spec_Sigma (b_weight (_b x)) ->
     w_sub (weight y) (weight x) = null_root) /\
  (forall i y, i <> 0 -> e x i = Some y \/ f x i = Some y ->
     spec_Sigma (b_weight (_b y)) = spec_Sigma (b_weight (_b x)) ->
     weight y = weight x).
Proof.
  split; [|split].
  - intros y Hy. apply weight_e0_diff, Hy.
  - intros y Hy HS. rewrite (weight_e0_diff _ _ Hy), HS, w_sub_diag.
    apply w_add_0_r.
  - intros i y Hi Hy HS. apply weight_same_base; [exact HS|].
    apply Z.eqb_neq in Hi.
    destruct Hy as [Hy|Hy];
      [destruct (e_inv _ _ _ Hy) as (_ & _ & Hm)
      |destruct (f_inv _ _ _ Hy) as (_ & _ & Hm)];
      rewrite Hi in Hm; exact Hm.
Qed.

End WeightFacts.

(** *** The Kirillov-Reshetikhin crystal of the examples *)

#[global] Instance KR22_ext_lattice_laws : WeightLatticeLaws KR22.ExtWeight.
Proof.
  split.
  - intros [] [] []; simpl; f_equal; lia.
  - intros [] []; simpl; f_equal; lia.
  - intros []; simpl; f_equal; lia.
  - intros []; simpl; f_equal; lia.
  - intros [a b c d]; simpl; f_equal; destruct a, b, c, d; reflexivity.
  - intros a b []; simpl; f_equal; lia.
Qed.

Lemma KR22_e_then_f (b b' : KR22.Tableau) (j : Z) :
  KR22.kr_e b j = Some b' -> KR22.kr_f b' j = Some b.
Proof.
  destruct j as [|[[]|[]|]|]; destruct b; simpl; intros [= <-]; reflexivity.
Qed.

Lemma KR22_f_then_e (b b' : KR22.Tableau) (j : Z) :
  KR22.kr_f b j = Some b' -> KR22.kr_e b' j = Some b.
Proof.
  destruct j as [|[[]|[]|]|]; destruct b; simpl; intros [= <-]; reflexivity.
Qed.

Lemma KR22_rank_refl (b : KR22.Tableau) :
  Z.eqb (KR22.rank b) (KR22.rank b) = true.
Proof. apply Z.eqb_refl. Qed.

(** The examples of the module's docstrings. *)

Example mg_e :
  e KR22.mg 0 = Some (KR22.elt KR22.T12_23 1) /\
  e KR22.mg 1 = None /\
  e (KR22.elt KR22.T12_23 1) 1 = Some (KR22.elt KR22.T11_23 1).
Proof. repeat split. Qed.

Example mg_f :
  f KR22.mg 2 = Some (KR22.elt KR22.T11_23 0) /\
  f_string KR22.mg [2; 2; 0] = None /\
  f_string KR22.mg [2; 1; 1] = None /\
  f_string KR22.mg [2; 1] = Some (KR22.elt KR22.T12_23 0) /\
  f_string KR22.mg [2; 1; 0] = Some (KR22.elt KR22.T11_22 (-1)).
Proof. repeat split. Qed.

Example mg_epsilon_phi :
  epsilon KR22.mg 0 = 2 /\ epsilon KR22.mg 1 = 0 /\
  phi KR22.mg 0 = 0 /\ phi KR22.mg 2 = 2.
Proof. repeat split. Qed.

Example mg_weight :
  weight KR22.mg = KR22.mkExtWeight (-2) 0 2 0 /\
  weight (KR22.elt KR22.T12_23 1) = KR22.mkExtWeight 0 (-1) 1 1 /\
  weight (KR22.elt KR22.T22_33 2) = KR22.mkExtWeight 2 (-2) 0 2.
Proof. repeat split. Qed.

Example mg_eq :
  let other := @VElement _ _ unit (KR22.elt KR22.T11_23 0) in
  __eq__ String.eqb KR22.mg (@VElement _ _ unit KR22.mg) = true /\
  __eq__ String.eqb KR22.mg other = false /\
  __ne__ String.eqb KR22.mg other = true /\
  __eq__ String.eqb KR22.mg (VOther tt) = false.
Proof. repeat split. Qed.

Example sorted_S : KR22.ascending __lt__ KR22.S_sorted = true.
Proof. reflexivity. Qed.

Example init_examples :
  __init__ KR22.A_id KR22.K_classical
  = inl (ValueError "must be an affine crystal") /\
  __init__ KR22.A_id KR22.K_infinite
  = inl (ValueError "must be finite crystal").
Proof. split; reflexivity. Qed.

(** The inverse law on the element [[[1, 2], [2, 3]](0)], where both
    [e_0] and [f_0] are defined. *)
Lemma inverse_law_witness :
  e (KR22.elt KR22.T12_23 0) 0 = Some (KR22.elt KR22.T22_33 1) /\
  (exists z, f (KR22.elt KR22.T22_33 1) 0 = Some z /\
     __eq__ String.eqb z (@VElement _ _ unit (KR22.elt KR22.T12_23 0))
     = true) /\
  f (KR22.elt KR22.T12_23 0) 0 = Some (KR22.elt KR22.T11_22 (-1)) /\
  (exists z, e (KR22.elt KR22.T11_22 (-1)) 0 = Some z /\
     __eq__ String.eqb z (@VElement _ _ unit (KR22.elt KR22.T12_23 0))
     = true).
Proof.
  pose proof (inverse_law String.eqb (O := unit) String.eqb_refl
    (fun b b' j Hb =>
       ex_intro _ b (conj (KR22_e_then_f b b' j Hb) (KR22_rank_refl b)))
    (fun b b' j Hb =>
       ex_intro _ b (conj (KR22_f_then_e b b' j Hb) (KR22_rank_refl b)))
    (KR22.elt KR22.T12_23 0) 0) as [Hraise Hlower].
  split; [reflexivity|]. split; [apply Hraise; reflexivity|].
  split; [reflexivity|]. apply Hlower. reflexivity.
Defined.

(** The generators of the affinization of the example crystal. *)
Lemma module_generators_witness :
  exists A, __init__ KR22.A_id KR22.K = inr A /\
            module_generators A = [KR22.mg].
Proof.
  eexists. split; [reflexivity|].
  exact (proj1 (module_generators_spec KR22.A_id KR22.K _ eq_refl)).
Defined.

(** The weight of the generator [[[1, 1], [2, 2]](0)]. *)
Lemma weight_spec_witness :
  weight KR22.mg = spec_weight [(0, -2); (2, 2)] 0 /\
  weight (KR22.elt KR22.T12_23 1)
  = w_add (spec_Sigma [(1, -1); (2, 1)]) (w_smul 1 KR22.delta).
Proof.
  split.
  - exact (proj1 (weight_spec (W := KR22.ExtWeight) KR22.mg)).
  - destruct (weight_spec (W := KR22.ExtWeight) (KR22.elt KR22.T12_23 1))
      as [Hw Hs].
    exact (eq_trans Hw Hs).
Defined.

(** Additivity under [e_0] with nothing assumed on the base crystal fails
    on the module's own example:
    [mg.e(0).weight() - mg.weight()] is
    [2*Lambda[0] - Lambda[1] - Lambda[2] + delta], not [delta]. *)
Lemma weight_additivity_counterexample :
  e KR22.mg 0 = Some (KR22.elt KR22.T12_23 1) /\
  w_sub (weight (KR22.elt KR22.T12_23 1)) (weight KR22.mg)
  = KR22.mkExtWeight 2 (-1) (-1) 1 /\
  w_sub (weight (KR22.elt KR22.T12_23 1)) (weight KR22.mg)
  <> (null_root : KR22.ExtWeight).
Proof.
  split; [reflexivity|]. split; [reflexivity|].
  vm_compute. discriminate.
Qed.

(** Weight additivity on the example crystal, and on the same graph
    without weights, where the base operators change no weight. *)
Lemma weight_additivity_witness :
  w_sub (weight (KR22.elt KR22.T12_23 1)) (weight KR22.mg)
  = w_add KR22.delta
      (w_sub (spec_Sigma [(1, -1); (2, 1)]) (spec_Sigma [(0, -2); (2, 2)])) /\
  w_sub (@weight _ KR22.unweighted _ _ _ (KR22.elt KR22.T12_23 1))
        (@weight _ KR22.unweighted _ _ _ KR22.mg)
  = KR22.delta /\
  @weight _ KR22.unweighted _ KR22.ExtWeight _ (KR22.elt KR22.T11_23 0)
  = @weight _ KR22.unweighted _ KR22.ExtWeight _ KR22.mg.
Proof.
  destruct (weight_additivity (W := KR22.ExtWeight) KR22.mg) as [Hgen _].
  destruct (@weight_additivity _ KR22.unweighted string KR22.ExtWeight _ _
              KR22.mg) as (_ & Hzero & Hother).
  split; [exact (Hgen _ eq_refl)|]. split.
  - exact (Hzero (KR22.elt KR22.T12_23 1) eq_refl eq_refl).
  - apply (Hother 2); [lia|right; reflexivity|reflexivity].
Defined.

(** *** Display strings *)

Section DisplayFacts.

Lemma list_ascii_of_string_append (s u : string) :
  list_ascii_of_string (s ++ u)
  = (list_ascii_of_string s ++ list_ascii_of_string u)%list.
Proof.
  induction s as [|a s IH]; simpl; [reflexivity|]. rewrite IH. reflexivity.
Qed.

(** A string is cut in one way only at the last occurrence of [c]. *)
Lemma cut_at_last (c : ascii) (s1 s2 u1 u2 : string) :
  ~ In c (list_ascii_of_string u1) -> ~ In c (list_ascii_of_string u2) ->
  (s1 ++ String c u1 = s2 ++ String c u2)%string ->
  s1 = s2 /\ u1 = u2.
Proof.
  intros Hu1 Hu2. revert s2.
  induction s1 as [|a s1 IH]; intros [|a2 s2]; simpl; intros Heq.
  - injection Heq as Htail. auto.
  - injection Heq as _ Htail. exfalso. apply Hu1.
    rewrite Htail, list_ascii_of_string_append. apply in_or_app.
    right. left. reflexivity.
  - injection Heq as _ Htail. exfalso. apply Hu2.
    rewrite <- Htail, list_ascii_of_string_append. apply in_or_app.
    right. left. reflexivity.
  - injection Heq as Hhead Htail. subst a2.
    destruct (IH s2 Htail) as [-> ->]. auto.
Qed.

Lemma string_of_uint_no_paren (c : ascii) (d : uint) :
  c = "("%char \/ c = ")"%char ->
  ~ In c (list_ascii_of_string (NilEmpty.string_of_uint d)).
Proof.
  intros Hc. induction d; simpl; intros Hin; try contradiction;
    destruct Hin as [<-|Hin]; try (apply IHd; exact Hin);
    destruct Hc as [[=]|[=]].
Qed.

(** A printed integer holds no parenthesis. *)
Lemma format_int_no_paren (c : ascii) (m : Z) :
  c = "("%char \/ c = ")"%char ->
  ~ In c (list_ascii_of_string (format_int m)).
Proof.
  intros Hc. unfold format_int, NilZero.string_of_int, NilZero.string_of_uint.
  assert (Hd : forall d, ~ In c (list_ascii_of_string
                                   match d with
                                       | Nil => "0"%string
                                       | _ => NilEmpty.string_of_uint d
                                       end)).
  { intros d. destruct d; try apply (string_of_uint_no_paren c _ Hc).
    simpl. intros [<-|[]]. destruct Hc as [[=]|[=]]. }
  destruct (Z.to_int m) as [d|d]; [apply Hd|].
  simpl. intros [<-|Hin]; [destruct Hc as [[=]|[=]]|apply (Hd d Hin)].
Qed.

Lemma to_int_not_nil (m : Z) : Z.to_int m <> Pos Nil /\ Z.to_int m <> Neg Nil.
Proof.
  destruct m as [|p|p]; simpl; split; try discriminate;
    intros [= Hp]; exact (Unsigned.to_uint_nonnil p Hp).
Qed.

(** A printed integer reads back as itself. *)
Lemma format_int_read (m : Z) :
  option_map Z.of_int (NilZero.int_of_string (format_int m)) = Some m.
Proof.
  unfold format_int. destruct (to_int_not_nil m) as [Hpos Hneg].
  rewrite (NilZero.isi _ Hpos Hneg). simpl. rewrite DecimalZ.of_to.
  reflexivity.
Qed.

Lemma format_int_inj (m k : Z) : format_int m = format_int k -> m = k.
Proof.
  intros Heq. pose proof (format_int_read m) as Hm.
  rewrite Heq, format_int_read in Hm. congruence.
Qed.

Lemma display_inj (s1 s2 : string) (m k : Z) :
  (s1 ++ "(" ++ format_int m ++ ")" = s2 ++ "(" ++ format_int k ++ ")")%string ->
  s1 = s2 /\ m = k.
Proof.
  intros Heq. apply cut_at_last in Heq.
  - destruct Heq as [Hs Hm]. split; [exact Hs|].
    apply (cut_at_last ")" _ _ "" "") in Hm; simpl; auto.
    apply format_int_inj, Hm.
  - rewrite list_ascii_of_string_append. intros Hin. apply in_app_or in Hin.
    destruct Hin as [Hin|[[=]|[]]].
    apply (format_int_no_paren "(" m); auto.
  - rewrite list_ascii_of_string_append. intros Hin. apply in_app_or in Hin.
    destruct Hin as [Hin|[[=]|[]]].
    apply (format_int_no_paren "(" k); auto.
Qed.

Context {B : Type} {P : Type}.
Context (b_repr : B -> string) (b_latex : B -> string).

Implicit Types (x y : @Element B P).

(** The display string of an element determines the display of its base
    element and its grade: the base part may hold any characters, the
    grade is what stands in the last pair of parentheses. *)
Theorem repr_determines x y :
  _repr_ b_repr x = _repr_ b_repr y ->
  b_repr (_b x) = b_repr (_b y) /\ _m x = _m y.
Proof. unfold _repr_. apply display_inj. Qed.

(** Two elements of one parent print alike only if they are the same
    element, when the base elements print differently. *)
Theorem repr_injective x y
  (Hinj : forall b b' : B, b_repr b = b_repr b' -> b = b')
  (Hparent : parent x = parent y) :
  _repr_ b_repr x = _repr_ b_repr y -> x = y.
Proof.
  intros Heq. destruct (display_inj _ _ _ _ Heq) as [Hb Hm].
  destruct x, y; simpl in *. f_equal; auto.
Qed.


End DisplayFacts.

Lemma KR22_tableau_repr_inj (b b' : KR22.Tableau) :
  KR22.tableau_repr b = KR22.tableau_repr b' -> b = b'.
Proof. destruct b, b'; simpl; intros [=]; reflexivity. Qed.

Example mg_repr :
  _repr_ KR22.tableau_repr KR22.mg = "[[1, 1], [2, 2]](0)"%string /\
  _repr_ KR22.tableau_repr (KR22.elt KR22.T11_22 (-1))
  = "[[1, 1], [2, 2]](-1)"%string.
Proof. split; reflexivity. Qed.

Lemma repr_determines_witness :
  KR22.tableau_repr KR22.T12_23 = KR22.tableau_repr KR22.T12_23 /\
  (1 = 1)%Z.
Proof.
  exact (repr_determines KR22.tableau_repr (KR22.elt KR22.T12_23 1)
           (KR22.elt KR22.T12_23 1) eq_refl).
Defined.

Lemma repr_injective_witness :
  KR22.elt KR22.T12_23 (-3) = KR22.elt KR22.T12_23 (-3).
Proof.
  exact (repr_injective KR22.tableau_repr (KR22.elt KR22.T12_23 (-3))
           (KR22.elt KR22.T12_23 (-3)) KR22_tableau_repr_inj eq_refl eq_refl).
Defined.


(** *** The order on elements *)

Section OrderFacts.

Context {B : Type} `{CrystalElement B}.
Context {P : Type} (parent_eqb : P -> P -> bool).

Implicit Types (x y z : @Element B P) (i : Z).

Lemma lt_cases x y :
  __lt__ x y = true <->
  (_m x < _m y \/ (_m x = _m y /\ b_ltb (_b x) (_b y) = true)).
Proof.
  unfold __lt__.
  rewrite orb_true_iff, andb_true_iff, Z.ltb_lt, Z.eqb_eq. reflexivity.
Qed.

Lemma lt_false_cases x y :
  __lt__ x y = false <->
  (_m y < _m x \/ (_m x = _m y /\ b_ltb (_b x) (_b y) = false)).
Proof.
  unfold __lt__.
  rewrite orb_false_iff, andb_false_iff, Z.ltb_ge, Z.eqb_neq.
  destruct (Z.lt_trichotomy (_m x) (_m y)) as [Hm|[Hm|Hm]];
    intuition (try lia; try congruence).
Qed.

(** [<] is a strict order on elements as soon as the base crystal's [<] is
    one: no element is below itself, and [<] is asymmetric and
    transitive. *)
Theorem lt_strict_order
  (Hirr : forall b : B, b_ltb b b = false)
  (Htrans : forall a b c : B,
      b_ltb a b = true -> b_ltb b c = true -> b_ltb a c = true) :
  (forall x, __lt__ x x = false) /\
  (forall x y, __lt__ x y = true -> __lt__ y x = false) /\
  (forall x y z, __lt__ x y = true -> __lt__ y z = true -> __lt__ x z = true).
Proof.
  split; [|split].
  - intros x. apply lt_false_cases. right. auto.
  - intros x y Hxy. apply lt_cases in Hxy. apply lt_false_cases.
    destruct Hxy as [Hm|[Hm Hb]]; [left; exact Hm|right].
    split; [symmetry; exact Hm|].
    destruct (b_ltb (_b y) (_b x)) eqn:Hyx; [|reflexivity].
    rewrite <- (Hirr (_b x)). symmetry. exact (Htrans _ _ _ Hb Hyx).
  - intros x y z Hxy Hyz. apply lt_cases in Hxy. apply lt_cases in Hyz.
    apply lt_cases.
    destruct Hxy as [Hxy|[Hxy Hb]], Hyz as [Hyz|[Hyz Hb']]; try (left; lia).
    right. split; [lia|]. exact (Htrans _ _ _ Hb Hb').
Qed.

(** Two elements of one parent are comparable or equal, when any two
    elements of the base crystal are. *)
Theorem lt_total_in_parent {O : Type}
  (Hrefl : forall p : P, parent_eqb p p = true)
  (Htotal : forall a b : B,
      b_ltb a b = true \/ b_ltb b a = true \/ b_eqb a b = true)
  x y (Hparent : parent x = parent y) :
  __lt__ x y = true \/ __lt__ y x = true \/
  __eq__ parent_eqb x (@VElement B P O y) = true.
Proof.
  destruct (Z.lt_trichotomy (_m x) (_m y)) as [Hm|[Hm|Hm]].
  - left. apply lt_cases. auto.
  - destruct (Htotal (_b x) (_b y)) as [Hb|[Hb|Hb]].
    + left. apply lt_cases. auto.
    + right. left. apply lt_cases. auto.
    + right. right. simpl. rewrite Hparent, Hrefl, Hb, Hm, Z.eqb_refl.
      reflexivity.
  - right. left. apply lt_cases. auto.
Qed.

(** [<] does not look at the parent: elements with the same base element
    and grade in two different parents are neither equal nor ordered. *)
Theorem lt_across_parents {O : Type} x y
  (Hparent : parent_eqb (parent x) (parent y) = false)
  (Hb : _b x = _b y) (Hm : _m x = _m y)
  (Hirr : b_ltb (_b x) (_b x) = false) :
  __eq__ parent_eqb x (@VElement B P O y) = false /\
  __lt__ x y = false /\ __lt__ y x = false.
Proof.
  split; [simpl; rewrite Hparent; reflexivity|].
  split; apply lt_false_cases; right; rewrite <- Hb, Hm; auto.
Qed.

(** Raising by [e_0] moves strictly up in the order and lowering by [f_0]
    strictly down, whatever the base crystal's order is. *)
Theorem lt_index_zero x y :
  (e x 0 = Some y -> __lt__ x y = true /\ __lt__ y x = false) /\
  (f x 0 = Some y -> __lt__ y x = true /\ __lt__ x y = false).
Proof.
  split; intros Hy.
  - destruct (e_inv _ _ _ Hy) as (_ & _ & Hm). simpl in Hm.
    split; [apply lt_cases|apply lt_false_cases]; left; lia.
  - destruct (f_inv _ _ _ Hy) as (_ & _ & Hm). simpl in Hm.
    split; [apply lt_cases|apply lt_false_cases]; left; lia.
Qed.

(** For an index other than [0] the grade is a tie, and the order of [x]
    and its image is that of their base elements. *)
Theorem lt_other_index x y i (Hi : i <> 0)
  (Hy : e x i = Some y \/ f x i = Some y) :
  __lt__ x y = b_ltb (_b x) (_b y) /\ __lt__ y x = b_ltb (_b y) (_b x).
Proof.
  assert (Hm : _m y = _m x).
  { apply Z.eqb_neq in Hi.
    destruct Hy as [Hy|Hy];
      [destruct (e_inv _ _ _ Hy) as (_ & _ & Hm)
      |destruct (f_inv _ _ _ Hy) as (_ & _ & Hm)];
      rewrite Hi in Hm; exact Hm. }
  unfold __lt__. rewrite Hm, Z.ltb_irrefl, Z.eqb_refl. auto.
Qed.

End OrderFacts.

(** *** Equality of elements *)

Section EqualityFacts.

Context {B : Type} `{CrystalElement B}.
Context {P : Type} (parent_eqb : P -> P -> bool).
Context {O : Type}.

Implicit Types (x y z : @Element B P) (i : Z).

Lemma eq_cases x y :
  __eq__ parent_eqb x (@VElement B P O y) = true <->
  parent_eqb (parent x) (parent y) = true /\
  b_eqb (_b x) (_b y) = true /\ _m x = _m y.
Proof. simpl. rewrite !andb_true_iff, Z.eqb_eq. tauto. Qed.

(** [==] is an equivalence on elements when [==] on parents and on base
    elements are equivalences. *)
Theorem eq_equivalence
  (Hp_refl : forall p : P, parent_eqb p p = true)
  (Hp_sym : forall p q : P, parent_eqb p q = true -> parent_eqb q p = true)
  (Hp_trans : forall p q r : P,
      parent_eqb p q = true -> parent_eqb q r = true -> parent_eqb p r = true)
  (Hb_refl : forall b : B, b_eqb b b = true)
  (Hb_sym : forall a b : B, b_eqb a b = true -> b_eqb b a = true)
  (Hb_trans : forall a b c : B,
      b_eqb a b = true -> b_eqb b c = true -> b_eqb a c = true) :
  (forall x, __eq__ parent_eqb x (@VElement B P O x) = true) /\
  (forall x y, __eq__ parent_eqb x (@VElement B P O y) = true ->
     __eq__ parent_eqb y (@VElement B P O x) = true) /\
  (forall x y z, __eq__ parent_eqb x (@VElement B P O y) = true ->
     __eq__ parent_eqb y (@VElement B P O z) = true ->
     __eq__ parent_eqb x (@VElement B P O z) = true).
Proof.
  split; [|split].
  - intros x. apply eq_cases. auto.
  - intros x y Hxy. apply eq_cases in Hxy. apply eq_cases.
    destruct Hxy as (Hp & Hb & Hm). auto.
  - intros x y z Hxy Hyz. apply eq_cases in Hxy. apply eq_cases in Hyz.
    apply eq_cases. destruct Hxy as (Hp & Hb & Hm), Hyz as (Hp' & Hb' & Hm').
    split; [|split]; [eapply Hp_trans|eapply Hb_trans|congruence]; eauto.
Qed.

(** The operators respect [==] when those of the base crystal do: on
    equal elements [e_i] and [f_i] are both undefined or give equal
    elements. *)
Theorem eq_respects_operators
  (He : forall (a b : B) j, b_eqb a b = true ->
     match b_e a j, b_e b j with
     | Some a', Some b' => b_eqb a' b' = true
     | None, None => True
     | _, _ => False
     end)
  (Hf : forall (a b : B) j, b_eqb a b = true ->
     match b_f a j, b_f b j with
     | Some a', Some b' => b_eqb a' b' = true
     | None, None => True
     | _, _ => False
     end)
  x y i (Hxy : __eq__ parent_eqb x (@VElement B P O y) = true) :
  match e x i, e y i with
  | Some x', Some y' => __eq__ parent_eqb x' (@VElement B P O y') = true
  | None, None => True
  | _, _ => False
  end /\
  match f x i, f y i with
  | Some x', Some y' => __eq__ parent_eqb x' (@VElement B P O y') = true
  | None, None => True
  | _, _ => False
  end.
Proof.
  apply eq_cases in Hxy. destruct Hxy as (Hp & Hb & Hm).
  specialize (He _ _ i Hb). specialize (Hf _ _ i Hb).
  unfold e, f. split.
  - destruct (b_e (_b x) i), (b_e (_b y) i);
      try contradiction; try exact I.
    destruct (Z.eqb i 0); apply eq_cases; simpl;
      repeat split; try assumption; lia.
  - destruct (b_f (_b x) i), (b_f (_b y) i);
      try contradiction; try exact I.
    destruct (Z.eqb i 0); apply eq_cases; simpl;
      repeat split; try assumption; lia.
Qed.

(** Equal elements have the same statistics when the base crystal's
    statistics respect its [==]. *)
Lemma eq_same_statistics
  (Hstat : forall (a b : B) j, b_eqb a b = true ->
     b_epsilon a j = b_epsilon b j /\ b_phi a j = b_phi b j)
  x y i :
  __eq__ parent_eqb x (@VElement B P O y) = true ->
  epsilon x i = epsilon y i /\ phi x i = phi y i.
Proof. intros Hxy. apply eq_cases in Hxy. apply Hstat. tauto. Qed.

End EqualityFacts.

(** *** Words of operators *)

Section WordFacts.

Context {B : Type} `{CrystalElement B}.
Context {P : Type} (parent_eqb : P -> P -> bool).

Implicit Types (x y : @Element B P) (i : Z) (w : list Step).

Lemma apply_step_base x s :
  apply_step x s
  = option_map (fun b' => mkElement (parent x) b' (_m x + step_degree s))
      (base_step (_b x) s).
Proof.
  destruct s as [i|i]; simpl; unfold e, f.
  - destruct (b_e (_b x) i); [|reflexivity].
    destruct (Z.eqb i 0); simpl; do 2 f_equal; lia.
  - destruct (b_f (_b x) i); [|reflexivity].
    destruct (Z.eqb i 0); simpl; do 2 f_equal; lia.
Qed.

Lemma apply_word_unfold x w :
  apply_word x w
  = option_map (fun b' => mkElement (parent x) b' (_m x + degree w))
      (base_word (_b x) w).
Proof.
  revert x. induction w as [|s w IH]; intros x; simpl.
  - destruct x; simpl. do 2 f_equal. lia.
  - rewrite apply_step_base.
    destruct (base_step (_b x) s) as [b'|]; simpl; [|reflexivity].
    rewrite IH. simpl.
    destruct (base_word b' w); simpl; [|reflexivity].
    do 2 f_equal. lia.
Qed.

Lemma apply_word_inv x w y :
  apply_word x w = Some y ->
  base_word (_b x) w = Some (_b y) /\ parent y = parent x /\
  _m y = _m x + degree w.
Proof.
  rewrite apply_word_unfold.
  destruct (base_word (_b x) w); simpl; intros [= <-]; auto.
Qed.

(** A chain of [e] and [f] calls is defined exactly when the same chain
    is defined on the base element; its result then stays in the parent,
    carries the base crystal's result, and its grade has moved by the
    number of [e(0)] calls minus the number of [f(0)] calls. *)
Theorem apply_word_spec x w :
  (apply_word x w <> None <-> base_word (_b x) w <> None) /\
  (forall y, apply_word x w = Some y ->
     base_word (_b x) w = Some (_b y) /\ parent y = parent x /\
     _m y = _m x + degree w) /\
  (forall b', base_word (_b x) w = Some b' ->
     apply_word x w = Some (mkElement (parent x) b' (_m x + degree w))).
Proof.
  split; [|split].
  - rewrite apply_word_unfold.
    destruct (base_word (_b x) w); simpl; split; congruence.
  - intros y. apply apply_word_inv.
  - intros b' Hb. rewrite apply_word_unfold, Hb. reflexivity.
Qed.

(** A chain of calls that comes back to an equal element has as many
    [e(0)] as [f(0)] calls: the crystal graph has no cycle in the grade. *)
Theorem word_cycle_degree {O : Type} x y w :
  apply_word x w = Some y ->
  __eq__ parent_eqb y (@VElement B P O x) = true ->
  degree w = 0.
Proof.
  intros Hy. destruct (apply_word_inv _ _ _ Hy) as (_ & _ & Hm).
  simpl. rewrite !andb_true_iff, Z.eqb_eq. lia.
Qed.

(** [f_string] is the chain of the [f] calls. *)
Lemma f_string_word x (l : list Z) : f_string x l = apply_word x (map F l).
Proof.
  revert x. induction l as [|i l IH]; intros x; simpl; [reflexivity|].
  destruct (f x i); [apply IH|reflexivity].
Qed.

(** [epsilon_i] counts how often [e_i] applies, and [phi_i] how often
    [f_i] applies, as soon as they do on the base crystal. *)
Theorem string_lengths i
  (Heps : forall (b : B) (k : nat),
      base_word b (repeat (E i) k) <> None <-> Z.of_nat k <= b_epsilon b i)
  (Hphi : forall (b : B) (k : nat),
      base_word b (repeat (F i) k) <> None <-> Z.of_nat k <= b_phi b i)
  x (k : nat) :
  (apply_word x (repeat (E i) k) <> None <-> Z.of_nat k <= epsilon x i) /\
  (apply_word x (repeat (F i) k) <> None <-> Z.of_nat k <= phi x i).
Proof.
  unfold epsilon, phi. rewrite <- Heps, <- Hphi, !apply_word_unfold.
  split.
  - destruct (base_word (_b x) (repeat (E i) k)); simpl;
      split; congruence.
  - destruct (base_word (_b x) (repeat (F i) k)); simpl;
      split; congruence.
Qed.

End WordFacts.

(** *** More on the weight lattice *)

Section LatticeGradeFacts.

Context {W : Type} `{WeightLatticeLaws W}.

Lemma w_add_cancel_r (u v w : W) : w_add u w = w_add v w -> u = v.
Proof.
  intros Heq.
  rewrite <- (w_add_0_r u), <- (w_add_0_r v), <- (w_add_opp_r w).
  rewrite !w_add_assoc, Heq. reflexivity.
Qed.

Lemma w_smul_0 (u : W) : w_smul 0 u = w_zero.
Proof.
  apply (w_add_cancel_r _ _ (w_smul 0 u)).
  rewrite <- w_smul_add_l, w_add_0_l. reflexivity.
Qed.

Lemma w_smul_sub (a b : Z) (u : W) :
  w_smul (a - b) u = w_sub (w_smul a u) (w_smul b u).
Proof.
  apply (w_add_cancel_r _ _ (w_smul b u)).
  rewrite <- w_smul_add_l. unfold w_sub.
  rewrite <- w_add_assoc, w_add_opp_l, w_add_0_r. f_equal. lia.
Qed.

Lemma w_add_swap_r (a b c : W) : w_add (w_add a b) c = w_add (w_add a c) b.
Proof. rewrite <- !w_add_assoc, (w_add_comm b c). reflexivity. Qed.

Lemma w_add_swap4 (a b c d : W) :
  w_add (w_add a b) (w_add c d) = w_add (w_add a c) (w_add b d).
Proof.
  rewrite <- !w_add_assoc. f_equal.
  rewrite !w_add_assoc, (w_add_comm b c). reflexivity.
Qed.

(** The difference of two weights splits into grade and base parts. *)
Lemma w_sub_grades (a a' d : W) (m m' : Z) :
  w_sub (w_add a' (w_smul m' d)) (w_add a (w_smul m d))
  = w_add (w_smul (m' - m) d) (w_sub a' a).
Proof.
  replace m' with ((m' - m) + m) at 1 by lia.
  rewrite w_smul_add_l, w_add_assoc, w_sub_cancel_r. unfold w_sub.
  rewrite (w_add_comm a'), w_add_assoc. reflexivity.
Qed.

End LatticeGradeFacts.

(** *** Weights along the operators *)

Section WeightOperatorFacts.

Context {B : Type} `{CrystalElement B} {P : Type}.
Context {W : Type} `{WeightLatticeLaws W}.

Implicit Types (x y : @Element B P) (i : Z).

(** The weights of any two elements differ by the difference of their
    grades times [delta], plus the difference of their base weights. *)
Theorem weight_difference x y :
  w_sub (weight y) (weight x)
  = w_add (w_smul (_m y - _m x) null_root)
      (w_sub (spec_Sigma (b_weight (_b y))) (spec_Sigma (b_weight (_b x)))).
Proof. rewrite !weight_Sigma. apply w_sub_grades. Qed.

(** Along a chain of [e] and [f] calls the weight moves by [delta] times
    the number of [e(0)] calls minus the number of [f(0)] calls, plus the
    change of the base weight. *)
Theorem weight_word x (w : list Step) y :
  apply_word x w = Some y ->
  w_sub (weight y) (weight x)
  = w_add (w_smul (degree w) null_root)
      (w_sub (spec_Sigma (b_weight (_b y))) (spec_Sigma (b_weight (_b x)))).
Proof.
  intros Hy. destruct (apply_word_inv _ _ _ Hy) as (_ & _ & Hm).
  rewrite !weight_Sigma, w_sub_grades. do 2 f_equal. lia.
Qed.

(** The weight axiom of crystals lifts: when [e_i] and [f_i] move the
    weight of the base crystal by [alpha_cl i], they move the weight of
    the affinization by the simple root [alpha_i], which is
    [alpha_cl 0 + delta] for [i = 0] and [alpha_cl i] otherwise. *)
Theorem weight_simple_root (alpha_cl : Z -> W)
  (He : forall (b b' : B) j, b_e b j = Some b' ->
     spec_Sigma (b_weight b')
     = w_add (spec_Sigma (b_weight b)) (alpha_cl j))
  (Hf : forall (b b' : B) j, b_f b j = Some b' ->
     spec_Sigma (b_weight b')
     = w_sub (spec_Sigma (b_weight b)) (alpha_cl j))
  x i y :
  let alpha :=
    if Z.eqb i 0 then w_add (alpha_cl 0) null_root else alpha_cl i in
  (e x i = Some y -> weight y = w_add (weight x) alpha) /\
  (f x i = Some y -> weight y = w_sub (weight x) alpha).
Proof.
  intros alpha. subst alpha. split; intros Hy.
  - destruct (e_inv _ _ _ Hy) as (Hb & _ & Hm).
    rewrite !weight_Sigma, (He _ _ _ Hb), Hm.
    destruct (Z.eqb_spec i 0) as [->|Hi].
    + rewrite w_smul_succ. apply w_add_swap4.
    + apply w_add_swap_r.
  - destruct (f_inv _ _ _ Hy) as (Hb & _ & Hm).
    rewrite !weight_Sigma, (Hf _ _ _ Hb), Hm.
    destruct (Z.eqb_spec i 0) as [->|Hi]; unfold w_sub.
    + rewrite w_opp_add, <- w_add_swap4. f_equal.
      rewrite w_smul_sub, w_smul_1. reflexivity.
    + apply w_add_swap_r.
Qed.

(** The generators have the weight of the base generators, with no
    [delta] in it. *)
Theorem weight_module_generators (self : P) (Bc : Crystal B)
  (A : @AffinizationOfCrystal.t B P) (Hinit : __init__ self Bc = inr A) :
  forall x, In x (module_generators A) ->
    weight x = spec_Sigma (b_weight (_b x)).
Proof.
  unfold __init__ in Hinit.
  destruct (negb (is_affine (cartan_type Bc))); [discriminate|].
  destruct (Cardinality_eqb (cardinality Bc) Infinity); [discriminate|].
  injection Hinit as <-. simpl. intros x Hx.
  apply in_map_iff in Hx. destruct Hx as (g & <- & _).
  rewrite weight_Sigma. simpl. rewrite w_smul_0. apply w_add_0_r.
Qed.

End WeightOperatorFacts.

(** *** What the constructor keeps *)

Section ConstructorFacts.

Context {B : Type} {P : Type}.

(** A parent that was built wraps the crystal it was given, which is of
    affine type and finite, and is its own identity. *)
Theorem init_invariant (self : P) (Bc : Crystal B)
  (A : @AffinizationOfCrystal.t B P) (Hinit : __init__ self Bc = inr A) :
  self_id A = self /\ _B A = Bc /\ _cartan_type A = cartan_type Bc /\
  is_affine (_cartan_type A) = true /\
  (exists n, cardinality (_B A) = Finite n).
Proof.
  unfold __init__ in Hinit.
  destruct (is_affine (cartan_type Bc)) eqn:Haff; [|discriminate].
  destruct (cardinality Bc) as [n|] eqn:Hcard; [|discriminate].
  simpl in Hinit. injection Hinit as <-. simpl.
  rewrite Haff, Hcard. eauto 6.
Qed.

End ConstructorFacts.

(** *** The example crystal again *)

Lemma KR22_lt_irrefl (b : KR22.Tableau) : b_ltb b b = false.
Proof. apply Z.ltb_irrefl. Qed.

Lemma KR22_lt_trans (a b c : KR22.Tableau) :
  b_ltb a b = true -> b_ltb b c = true -> b_ltb a c = true.
Proof. simpl. rewrite !Z.ltb_lt. lia. Qed.

Lemma KR22_rank_inj (a b : KR22.Tableau) : KR22.rank a = KR22.rank b -> a = b.
Proof. destruct a, b; simpl; intros [=]; reflexivity. Qed.

Lemma KR22_total (a b : KR22.Tableau) :
  b_ltb a b = true \/ b_ltb b a = true \/ b_eqb a b = true.
Proof. simpl. rewrite !Z.ltb_lt, Z.eqb_eq. lia. Qed.

Lemma KR22_eq_sym (a b : KR22.Tableau) : b_eqb a b = true -> b_eqb b a = true.
Proof. simpl. rewrite !Z.eqb_eq. auto. Qed.

Lemma KR22_eq_trans (a b c : KR22.Tableau) :
  b_eqb a b = true -> b_eqb b c = true -> b_eqb a c = true.
Proof. simpl. rewrite !Z.eqb_eq. congruence. Qed.

Lemma string_eqb_sym (p q : string) :
  String.eqb p q = true -> String.eqb q p = true.
Proof. rewrite !String.eqb_eq. auto. Qed.

Lemma string_eqb_trans (p q r : string) :
  String.eqb p q = true -> String.eqb q r = true -> String.eqb p r = true.
Proof. rewrite !String.eqb_eq. congruence. Qed.

Lemma KR22_e_respects_eq (a b : KR22.Tableau) (j : Z) :
  b_eqb a b = true ->
  match b_e a j, b_e b j with
  | Some a', Some b' => b_eqb a' b' = true
  | None, None => True
  | _, _ => False
  end.
Proof.
  intros Hab. apply Z.eqb_eq, KR22_rank_inj in Hab. subst b.
  destruct (b_e a j); [apply Z.eqb_refl|exact I].
Qed.

Lemma KR22_f_respects_eq (a b : KR22.Tableau) (j : Z) :
  b_eqb a b = true ->
  match b_f a j, b_f b j with
  | Some a', Some b' => b_eqb a' b' = true
  | None, None => True
  | _, _ => False
  end.
Proof.
  intros Hab. apply Z.eqb_eq, KR22_rank_inj in Hab. subst b.
  destruct (b_f a j); [apply Z.eqb_refl|exact I].
Qed.

(** No string of the example crystal is longer than two arrows. *)
Lemma KR22_string_dies (op : Z -> Step) (b : KR22.Tableau) (i : Z) (k : nat) :
  op = E \/ op = F ->
  base_word b (repeat (op i) (S (S (S k)))) = None.
Proof.
  intros [-> | ->]; destruct i as [|[[]|[]|]|]; destruct b; reflexivity.
Qed.

Lemma KR22_epsilon_le (b : KR22.Tableau) (i : Z) :
  0 <= KR22.kr_epsilon b i <= 2 /\ 0 <= KR22.kr_phi b i <= 2.
Proof.
  destruct i as [|[[]|[]|]|]; destruct b; vm_compute; intuition congruence.
Qed.

Lemma KR22_epsilon_strings (i : Z) (b : KR22.Tableau) (k : nat) :
  base_word b (repeat (E i) k) <> None <-> Z.of_nat k <= b_epsilon b i.
Proof.
  destruct k as [|[|[|k]]].
  - split; [intros _; apply KR22_epsilon_le|discriminate].
  - destruct i as [|[[]|[]|]|]; destruct b; vm_compute;
      split; congruence.
  - destruct i as [|[[]|[]|]|]; destruct b; vm_compute;
      split; congruence.
  - rewrite (KR22_string_dies E b i k (or_introl eq_refl)).
    pose proof (KR22_epsilon_le b i) as [Hle _]. simpl b_epsilon.
    split; [congruence|lia].
Qed.

Lemma KR22_phi_strings (i : Z) (b : KR22.Tableau) (k : nat) :
  base_word b (repeat (F i) k) <> None <-> Z.of_nat k <= b_phi b i.
Proof.
  destruct k as [|[|[|k]]].
  - split; [intros _; apply KR22_epsilon_le|discriminate].
  - destruct i as [|[[]|[]|]|]; destruct b; vm_compute;
      split; congruence.
  - destruct i as [|[[]|[]|]|]; destruct b; vm_compute;
      split; congruence.
  - rewrite (KR22_string_dies F b i k (or_intror eq_refl)).
    pose proof (KR22_epsilon_le b i) as [_ Hle]. simpl b_phi.
    split; [congruence|lia].
Qed.

Lemma KR22_e_simple_root (b b' : KR22.Tableau) (j : Z) :
  b_e b j = Some b' ->
  spec_Sigma (b_weight b')
  = w_add (spec_Sigma (b_weight b)) (KR22.alpha_classical j).
Proof.
  destruct j as [|[[]|[]|]|]; destruct b; simpl; intros [= <-]; reflexivity.
Qed.

Lemma KR22_f_simple_root (b b' : KR22.Tableau) (j : Z) :
  b_f b j = Some b' ->
  spec_Sigma (b_weight b')
  = w_sub (spec_Sigma (b_weight b)) (KR22.alpha_classical j).
Proof.
  destruct j as [|[[]|[]|]|]; destruct b; simpl; intros [= <-]; reflexivity.
Qed.

(** The order of the example crystal's affinization is strict. *)
Lemma lt_strict_order_witness :
  (forall x : KR22.Elt, __lt__ x x = false) /\
  (forall x y : KR22.Elt, __lt__ x y = true -> __lt__ y x = false) /\
  (forall x y z : KR22.Elt,
      __lt__ x y = true -> __lt__ y z = true -> __lt__ x z = true).
Proof. exact (lt_strict_order KR22_lt_irrefl KR22_lt_trans). Defined.

Lemma lt_total_in_parent_witness :
  __lt__ KR22.mg (KR22.elt KR22.T11_23 0) = true \/
  __lt__ (KR22.elt KR22.T11_23 0) KR22.mg = true \/
  __eq__ String.eqb KR22.mg (@VElement _ _ unit (KR22.elt KR22.T11_23 0))
  = true.
Proof.
  exact (lt_total_in_parent String.eqb String.eqb_refl KR22_total
           KR22.mg (KR22.elt KR22.T11_23 0) eq_refl).
Defined.

(** The generator in a second parent. *)
Lemma lt_across_parents_witness :
  let y := mkElement KR22.A_other KR22.T11_22 0 in
  __eq__ String.eqb KR22.mg (@VElement _ _ unit y) = false /\
  __lt__ KR22.mg y = false /\ __lt__ y KR22.mg = false.
Proof.
  exact (lt_across_parents String.eqb KR22.mg
           (mkElement KR22.A_other KR22.T11_22 0)
           eq_refl eq_refl eq_refl eq_refl).
Defined.

Lemma lt_index_zero_witness :
  (__lt__ KR22.mg (KR22.elt KR22.T12_23 1) = true /\
   __lt__ (KR22.elt KR22.T12_23 1) KR22.mg = false) /\
  (__lt__ (KR22.elt KR22.T11_22 (-1)) (KR22.elt KR22.T12_23 0) = true /\
   __lt__ (KR22.elt KR22.T12_23 0) (KR22.elt KR22.T11_22 (-1)) = false).
Proof.
  split.
  - exact (proj1 (lt_index_zero KR22.mg (KR22.elt KR22.T12_23 1)) eq_refl).
  - exact (proj2 (lt_index_zero (KR22.elt KR22.T12_23 0)
                    (KR22.elt KR22.T11_22 (-1))) eq_refl).
Defined.

Lemma lt_other_index_witness :
  __lt__ KR22.mg (KR22.elt KR22.T11_23 0)
  = b_ltb KR22.T11_22 KR22.T11_23 /\
  __lt__ (KR22.elt KR22.T11_23 0) KR22.mg
  = b_ltb KR22.T11_23 KR22.T11_22.
Proof.
  apply (lt_other_index KR22.mg (KR22.elt KR22.T11_23 0) 2).
  - discriminate.
  - right. reflexivity.
Defined.

Lemma eq_equivalence_witness :
  (forall x : KR22.Elt, __eq__ String.eqb x (@VElement _ _ unit x) = true) /\
  (forall x y : KR22.Elt,
      __eq__ String.eqb x (@VElement _ _ unit y) = true ->
      __eq__ String.eqb y (@VElement _ _ unit x) = true) /\
  (forall x y z : KR22.Elt,
      __eq__ String.eqb x (@VElement _ _ unit y) = true ->
      __eq__ String.eqb y (@VElement _ _ unit z) = true ->
      __eq__ String.eqb x (@VElement _ _ unit z) = true).
Proof.
  exact (eq_equivalence String.eqb String.eqb_refl string_eqb_sym
           string_eqb_trans KR22_rank_refl KR22_eq_sym KR22_eq_trans).
Defined.

Lemma eq_respects_operators_witness :
  match e KR22.mg 0, e (KR22.elt KR22.T11_22 0) 0 with
  | Some x', Some y' => __eq__ String.eqb x' (@VElement _ _ unit y') = true
  | None, None => True
  | _, _ => False
  end /\
  match f KR22.mg 0, f (KR22.elt KR22.T11_22 0) 0 with
  | Some x', Some y' => __eq__ String.eqb x' (@VElement _ _ unit y') = true
  | None, None => True
  | _, _ => False
  end.
Proof.
  exact (eq_respects_operators String.eqb KR22_e_respects_eq
           KR22_f_respects_eq KR22.mg (KR22.elt KR22.T11_22 0) 0 eq_refl).
Defined.

(** Around the crystal and back: [f_2 f_1 f_0] then [e_0 e_1 e_2]. *)
Lemma word_cycle_degree_witness :
  degree [F 2; F 1; F 0; E 0; E 1; E 2] = 0.
Proof.
  exact (word_cycle_degree String.eqb (O := unit) KR22.mg KR22.mg
           [F 2; F 1; F 0; E 0; E 1; E 2] eq_refl eq_refl).
Defined.

Lemma string_lengths_witness :
  (apply_word KR22.mg (repeat (E 0) 2) <> None <-> 2 <= epsilon KR22.mg 0) /\
  (apply_word KR22.mg (repeat (F 0) 2) <> None <-> 2 <= phi KR22.mg 0).
Proof.
  exact (string_lengths 0 (KR22_epsilon_strings 0) (KR22_phi_strings 0)
           KR22.mg 2%nat).
Defined.

Lemma weight_difference_witness :
  w_sub (weight (KR22.elt KR22.T22_33 2)) (weight KR22.mg)
  = w_add (w_smul (2 - 0) KR22.delta)
      (w_sub (spec_Sigma [(0, 2); (1, -2)]) (spec_Sigma [(0, -2); (2, 2)])).
Proof.
  exact (weight_difference (W := KR22.ExtWeight) KR22.mg
           (KR22.elt KR22.T22_33 2)).
Defined.

Lemma weight_word_witness :
  w_sub (weight (KR22.elt KR22.T11_22 (-1))) (weight KR22.mg)
  = w_add (w_smul (-1) KR22.delta)
      (w_sub (spec_Sigma [(0, -2); (2, 2)]) (spec_Sigma [(0, -2); (2, 2)])).
Proof.
  exact (weight_word (W := KR22.ExtWeight) KR22.mg [F 2; F 1; F 0]
           (KR22.elt KR22.T11_22 (-1)) eq_refl).
Defined.

(** [e_0] adds [alpha[0] = 2*Lambda[0] - Lambda[1] - Lambda[2] + delta]. *)
Lemma weight_simple_root_witness :
  weight (KR22.elt KR22.T12_23 1)
  = w_add (weight KR22.mg) (KR22.mkExtWeight 2 (-1) (-1) 1) /\
  weight (KR22.elt KR22.T11_22 (-1))
  = w_sub (weight (KR22.elt KR22.T12_23 0)) (KR22.mkExtWeight 2 (-1) (-1) 1).
Proof.
  split.
  - exact (proj1 (weight_simple_root KR22.alpha_classical KR22_e_simple_root
                    KR22_f_simple_root KR22.mg 0 (KR22.elt KR22.T12_23 1))
             eq_refl).
  - exact (proj2 (weight_simple_root KR22.alpha_classical KR22_e_simple_root
                    KR22_f_simple_root (KR22.elt KR22.T12_23 0) 0
                    (KR22.elt KR22.T11_22 (-1)))
             eq_refl).
Defined.

Lemma weight_module_generators_witness :
  weight KR22.mg = (spec_Sigma [(0, -2); (2, 2)] : KR22.ExtWeight).
Proof.
  exact (weight_module_generators (W := KR22.ExtWeight) KR22.A_id KR22.K _
           eq_refl KR22.mg (or_introl eq_refl)).
Defined.

Lemma init_invariant_witness :
  exists A, __init__ KR22.A_id KR22.K = inr A /\
            self_id A = KR22.A_id /\ _B A = KR22.K /\
            _cartan_type A = KR22.A21 /\
            is_affine (_cartan_type A) = true /\
            (exists n, cardinality (_B A) = Finite n).
Proof.
  eexists. split; [reflexivity|].
  exact (init_invariant KR22.A_id KR22.K _ eq_refl).
Defined.
